(** * The employee service of [server.js], embedded in Rocq

    [server.js] is an Express application over a MongoDB client.  The
    handlers are embedded as programs over the calls they await (the driver's
    [connect], [countDocuments], [insertOne], [insertMany], [find().toArray()]
    and the clock read by [new Date()]); an interpreter runs such a program
    against a model of the store, with an oracle that decides which calls
    fail.  Theorems are stated on runs of one handler, and on servers whose
    handlers in flight make their calls in any interleaved order. *)

From Stdlib Require Import ZArith Floats.PrimFloat.
From stdpp Require Import gmap strings list.

Local Open Scope Z_scope.
Local Open Scope string_scope.
Local Open Scope list_scope.
#[local] Set Warnings "-register-all".

(** ** JavaScript values *)

(** The values the handlers touch: what [JSON.parse] yields for a request
    body (numbers are IEEE doubles), [undefined] for an absent property, the
    [Date] made by [new Date()] (milliseconds since the epoch) and the
    [ObjectId] of an inserted document. *)
Inductive value : Type :=
| VUndefined
| VNull
| VBool (b : bool)
| VNum (f : float)
| VStr (s : string)
| VDate (ms : Z)
| VObjectId (n : nat)
| VArr (items : list value)
| VObj (fields : list (string * value)).

(** An object is its own properties in insertion order; keys are unique. *)
Abbreviation object := (list (string * value)).

(** [ToBoolean]: the falsy values are [undefined], [null], [false], [0],
    [-0], [NaN] and the empty string. *)
Definition truthy (v : value) : bool :=
  match v with
  | VUndefined | VNull => false
  | VBool b => b
  | VNum f => negb (PrimFloat.eqb f 0%float || PrimFloat.is_nan f)
  | VStr s => negb (String.eqb s "")
  | VDate _ | VObjectId _ | VArr _ | VObj _ => true
  end.

(** [o[k]] for an own property: [None] when [o] has no such property. *)
Fixpoint own (o : object) (k : string) : option value :=
  match o with
  | [] => None
  | (k', v) :: o' => if String.eqb k k' then Some v else own o' k
  end.

(** Reading a property that is absent gives [undefined]. *)
Definition get (o : object) (k : string) : value :=
  match own o k with
  | Some v => v
  | None => VUndefined
  end.

Definition has (o : object) (k : string) : bool :=
  match own o k with
  | Some _ => true
  | None => false
  end.

(** [o[k] = v]: an existing property keeps its place, a new one goes last. *)
Fixpoint assign (o : object) (k : string) (v : value) : object :=
  match o with
  | [] => [(k, v)]
  | (k', v') :: o' =>
      if String.eqb k k' then (k', v) :: o' else (k', v') :: assign o' k v
  end.

(** [{ ...o, ...src }]: the properties of [src] assigned onto [o] in order. *)
Definition spread (o src : object) : object :=
  fold_left (fun acc kv => assign acc (fst kv) (snd kv)) src o.

(** Whether [ToString v] completes, as a template literal needs it to.  A
    parsed JSON object has no callable property: with an own ["toString"] it
    has no usable [toString], and the inherited [valueOf] returns the object
    itself, so the conversion throws a [TypeError]; without one the
    inherited [toString] answers.  An array converts each of its items that
    is neither [null] nor [undefined].  Every other value converts. *)
Fixpoint stringifies (v : value) : bool :=
  match v with
  | VObj fields => negb (has fields "toString")
  | VArr items => forallb stringifies items
  | _ => true
  end.

(** What the driver writes for a value: a property holding [undefined] is
    written as [null] (the serializer's default); every other value is kept
    as it is. *)
Fixpoint bson (v : value) : value :=
  match v with
  | VUndefined => VNull
  | VArr items => VArr (map bson items)
  | VObj fields => VObj (map (fun kv => (fst kv, bson (snd kv))) fields)
  | _ => v
  end.

Definition bson_doc (doc : object) : object :=
  map (fun kv => (fst kv, bson (snd kv))) doc.

(** The values [JSON.parse] can yield: no [undefined], no [NaN], no [Date]
    and no [ObjectId], at any depth. *)
Fixpoint is_json (v : value) : bool :=
  match v with
  | VUndefined | VDate _ | VObjectId _ => false
  | VNum f => negb (PrimFloat.is_nan f)
  | VArr items => forallb is_json items
  | VObj fields => forallb (fun kv => is_json (snd kv)) fields
  | VNull | VBool _ | VStr _ => true
  end.

(** ** Configuration ([server.js] lines 6 to 11) *)

(** [process.env.X || fallback]: an unset or empty variable gives the
    fallback. *)
Definition env_or (var : option string) (fallback : string) : string :=
  match var with
  | Some s => if String.eqb s "" then fallback else s
  | None => fallback
  end.

Definition mongoUri (MONGO_URI : option string) : string :=
  env_or MONGO_URI "mongodb://localhost:27017".
Definition dbName : string := "voiceowl".
Definition employeesCollectionName : string := "employees".
Definition companyListCollectionName : string := "company_list".

(** The connected database instance held by the global [db]; the variable is
    [undefined] ([None]) until [connectToMongo] assigns it. *)
Record Db : Type := { databaseName : string }.

(** ** The calls a handler awaits *)

Inductive call : Type :=
| connect (uri : string)
| countDocuments (coll : string)
| insertOne (coll : string) (doc : object)
| insertMany (coll : string) (docs : list object)
| findToArray (coll : string)
| newDate.

Record InsertOneResult : Type :=
  { acknowledged : bool; insertedId : value }.

Record InsertManyResult : Type :=
  { acknowledgedMany : bool; insertedIds : list value }.

(** What each call resolves to. *)
Definition reply (c : call) : Type :=
  match c with
  | connect _ => unit
  | countDocuments _ => nat
  | insertOne _ _ => InsertOneResult
  | insertMany _ _ => InsertManyResult
  | findToArray _ => list object
  | newDate => Z
  end.

(** What can be thrown: the error of a rejected call, or the [TypeError] of
    a conversion that fails. *)
Inductive error : Type := MongoError | TypeError.

(** A program either returns, or awaits a call and continues with what the
    call resolved to or threw. *)
Inductive prog (R : Type) : Type :=
| Ret (r : R)
| Await (c : call) (k : error + reply c -> prog R).
Arguments Ret {R} r.
Arguments Await {R} c k.

Fixpoint prog_bind {A B : Type} (p : prog A) (f : A -> prog B) : prog B :=
  match p with
  | Ret a => f a
  | Await c k => Await c (fun x => prog_bind (k x) f)
  end.

(** Code inside a [try] block: a thrown error skips the rest of the block. *)
Definition block (R : Type) : Type := prog (error + R).

Definition ret {R : Type} (r : R) : block R := Ret (inr r).

Definition await (c : call) : block (reply c) := Await c Ret.

Definition bind {A B : Type} (m : block A) (f : A -> block B) : block B :=
  prog_bind m (fun r => match r with
                        | inl e => Ret (inl e)
                        | inr a => f a
                        end).

(** [try { m } catch (err) { h err }], where the [catch] body does not
    throw. *)
Definition try_catch {R : Type} (m : block R) (h : error -> prog R) : prog R :=
  prog_bind m (fun r => match r with
                        | inl e => h e
                        | inr a => Ret a
                        end).

Definition throw {R : Type} (e : error) : block R := Ret (inl e).

(** A template literal that interpolates [v]: it throws when [v] cannot be
    converted to a string.  The text it makes is only logged, and is not
    modelled. *)
Definition template (v : value) : block unit :=
  if stringifies v then ret tt else throw TypeError.

Declare Scope block_scope.
Delimit Scope block_scope with block.
Notation "x <- m ;; k" := (bind m (fun x => k))
  (at level 100, m at next level, right associativity) : block_scope.
Notation "m ;;; k" := (bind m (fun _ => k))
  (at level 100, right associativity) : block_scope.

(** ** The store and the clock *)

(** The database [voiceowl]: its named collections, each the list of its
    documents in insertion order (a collection never written to is empty),
    and the counter the next [ObjectId] is drawn from.  The store outlives
    the process.  A collection holds each document as the driver wrote it
    ([bson_doc]), with its [_id] first. *)
Record world : Type :=
  { collections : gmap string (list object);
    next_id : nat }.

Definition collection (w : world) (coll : string) : list object :=
  default [] (collections w !! coll).

Definition empty_store : world :=
  {| collections := ∅; next_id := 0 |}.

(** How a call to the store ends.  A call that throws leaves the store as it
    was.  An unacknowledged write (write concern 0) is applied, but its
    result has [acknowledged: false]; for a call that writes nothing,
    [Unacknowledged] is the same as [Succeeds]. *)
Inductive fate : Type := Succeeds | Unacknowledged | Throws.

(** What the environment decides: the fate of each store call in turn (every
    call succeeds once the list is used up) and the readings of the clock in
    turn. *)
Record oracle : Type :=
  { fates : list fate;
    clock : list Z }.

Definition calm : oracle := {| fates := []; clock := [] |}.

Definition next_fate (o : oracle) : fate * oracle :=
  match fates o with
  | [] => (Succeeds, o)
  | f :: fs => (f, {| fates := fs; clock := clock o |})
  end.

Definition next_time (o : oracle) : Z * oracle :=
  match clock o with
  | [] => (0, o)
  | t :: ts => (t, {| fates := fates o; clock := ts |})
  end.

Definition is_acked (f : fate) : bool :=
  match f with
  | Succeeds => true
  | Unacknowledged | Throws => false
  end.

(** A stored document carries its identity first. *)
Definition with_id (id : value) (doc : object) : object := ("_id", id) :: doc.

Definition fresh_ids (from n : nat) : list value :=
  map VObjectId (seq from n).

Definition append_docs (w : world) (coll : string) (docs : list object) : world :=
  {| collections := <[coll := (collection w coll ++ docs)]> (collections w);
     next_id := (next_id w + length docs)%nat |}.

(** One call against the store: what it resolves to (or throws), the store
    afterwards and the rest of the oracle. *)
Definition perform (c : call) (o : oracle) (w : world)
  : (error + reply c) * world * oracle :=
  match c return (error + reply c) * world * oracle with
  | newDate => let '(t, o') := next_time o in (inr t, w, o')
  | connect _ =>
      let '(f, o') := next_fate o in
      match f with
      | Throws => (inl MongoError, w, o')
      | _ => (inr tt, w, o')
      end
  | countDocuments coll =>
      let '(f, o') := next_fate o in
      match f with
      | Throws => (inl MongoError, w, o')
      | _ => (inr (length (collection w coll)), w, o')
      end
  | findToArray coll =>
      let '(f, o') := next_fate o in
      match f with
      | Throws => (inl MongoError, w, o')
      | _ => (inr (collection w coll), w, o')
      end
  | insertOne coll doc =>
      let '(f, o') := next_fate o in
      match f with
      | Throws => (inl MongoError, w, o')
      | _ =>
          let id := VObjectId (next_id w) in
          (inr {| acknowledged := is_acked f; insertedId := id |},
           append_docs w coll [with_id id (bson_doc doc)], o')
      end
  | insertMany coll docs =>
      let '(f, o') := next_fate o in
      match f with
      | Throws => (inl MongoError, w, o')
      | _ =>
          let ids := fresh_ids (next_id w) (length docs) in
          (inr {| acknowledgedMany := is_acked f; insertedIds := ids |},
           append_docs w coll (zip_with with_id ids (map bson_doc docs)), o')
      end
  end.

(** A call that was made, with what it resolved to or threw. *)
Record event : Type := Event
  { made : call;
    got : error + reply made }.

Record run_result (R : Type) : Type := Ran
  { returned : R;
    store : world;
    remaining : oracle;
    trace : list event }.
Arguments Ran {R}.
Arguments returned {R}.
Arguments store {R}.
Arguments remaining {R}.
Arguments trace {R}.

Fixpoint run {R : Type} (p : prog R) (o : oracle) (w : world) : run_result R :=
  match p with
  | Ret r => Ran r w o []
  | Await c k =>
      let '(a, w', o') := perform c o w in
      let r := run (k a) o' w' in
      Ran (returned r) (store r) (remaining r) (Event c a :: trace r)
  end.

(** *** Reading a trace *)

Definition threw (e : event) : bool :=
  match got e with
  | inl _ => true
  | inr _ => false
  end.

(** The documents an event added to collection [coll]. *)
Definition added (coll : string) (e : event) : list object :=
  match e with
  | Event (insertOne c doc) (inr res) =>
      if String.eqb c coll then [with_id (insertedId res) (bson_doc doc)] else []
  | Event (insertMany c docs) (inr res) =>
      if String.eqb c coll
      then zip_with with_id (insertedIds res) (map bson_doc docs)
      else []
  | _ => []
  end.

Definition added_by (coll : string) (t : list event) : list object :=
  flat_map (added coll) t.

(** ** Startup ([connectToMongo], lines 16 to 49) *)

(** The process after startup: running with the global [db], or ended by
    [process.exit]. *)
Inductive process : Type :=
| Running (db : option Db)
| Exited (code : Z).

Definition seedEmployees : list object :=
  [ [("name", VStr "Charlie Brown"); ("email", VStr "charlie.b@voiceowl.com");
     ("department", VStr "HR")];
    [("name", VStr "Diana Prince"); ("email", VStr "diana.p@voiceowl.com");
     ("department", VStr "Sales")] ].

Definition seedCompanyList (t1 t2 : Z) : list object :=
  [ [("name", VStr "Charlie Brown"); ("addedAt", VDate t1)];
    [("name", VStr "Diana Prince"); ("addedAt", VDate t2)] ].

Definition connectToMongo (uri : string) : prog process :=
  try_catch
    (await (connect uri) ;;;
     let db := {| databaseName := dbName |} in
     count <- await (countDocuments employeesCollectionName) ;;
     (if Nat.eqb count 0 then
        (await (insertMany employeesCollectionName seedEmployees) ;;;
         t1 <- await newDate ;;
         t2 <- await newDate ;;
         await (insertMany companyListCollectionName (seedCompanyList t1 t2)) ;;;
         ret tt)
      else ret tt) ;;;
     ret (Running (Some db)))%block
    (fun err => Ret (Exited 1)).

(** ** Responses *)

Inductive payload : Type :=
| Text (s : string)
| Json (v : value).

Record response : Type :=
  { status : Z;
    body : payload }.

(** [res.status(code).send(text)] *)
Definition send (code : Z) (text : string) : response :=
  {| status := code; body := Text text |}.

(** [res.status(code).json(v)]; [res.json(v)] is [json 200 v]. *)
Definition json (code : Z) (v : value) : response :=
  {| status := code; body := Json v |}.

Definition error_body (msg : string) : value := VObj [("error", VStr msg)].

(** ** GET /health (lines 58 to 64) *)

Definition health (db : option Db) : prog response :=
  match db with
  | Some _ => Ret (send 200 "OK (MongoDB Connected)")
  | None => Ret (send 503 "Service Unavailable: MongoDB not connected")
  end.

(** ** GET /greet (lines 67 to 70) *)

(** A parsed query parameter: a string, or an array or object of parameters
    when the query string repeats or nests the name. *)
Inductive qvalue : Type :=
| QStr (s : string)
| QArr (items : list qvalue)
| QObj (fields : list (string * qvalue)).

Definition q_truthy (q : qvalue) : bool :=
  match q with
  | QStr s => negb (String.eqb s "")
  | QArr _ | QObj _ => true
  end.

(** The string a template literal makes of a query parameter. *)
Fixpoint q_string (q : qvalue) : string :=
  match q with
  | QStr s => s
  | QArr items =>
      (fix join (l : list qvalue) : string :=
         match l with
         | [] => ""
         | x :: l' =>
             match l' with
             | [] => q_string x
             | _ :: _ => q_string x +:+ "," +:+ join l'
             end
         end) items
  | QObj _ => "[object Object]"
  end.

(** [req.query.name || 'World'] *)
Definition name_or_World (name : option qvalue) : qvalue :=
  match name with
  | Some q => if q_truthy q then q else QStr "World"
  | None => QStr "World"
  end.

Definition greet (query_name : option qvalue) : prog response :=
  let name := name_or_World query_name in
  Ret (json 200 (VObj [("message", VStr ("Hello, " +:+ q_string name +:+ "!"))])).

(** ** POST /employees (lines 73 to 108) *)

(** [{ name, email, department, addedDate: new Date() }] (line 85) *)
Definition newEmployee (name email department : value) (now : Z) : object :=
  [("name", name); ("email", email); ("department", department);
   ("addedDate", VDate now)].

(** [{ name, addedAt: new Date() }] (line 93) *)
Definition companyListEntry (name : value) (now : Z) : object :=
  [("name", name); ("addedAt", VDate now)].

(** [req.body] is the object [express.json()] parsed; a body that is a JSON
    array has none of the three properties read here, and reads like [{}].
    The two [console.log] calls inside the [try] (lines 89 and 95)
    interpolate [name] in a template literal, which can throw.  [res.json]
    leaves out a property holding [undefined] when it writes the text of
    the response; the response is kept here as the object handed to it. *)
Definition post_employees (db : option Db) (req_body : object) : prog response :=
  match db with
  | None => Ret (json 503 (error_body "Database not connected"))
  | Some _ =>
      let name := get req_body "name" in
      let email := get req_body "email" in
      let department := get req_body "department" in
      if negb (truthy name) || negb (truthy email) then
        Ret (json 400 (error_body "Name and email are required."))
      else
        try_catch
          (now <- await newDate ;;
           let newEmployee := newEmployee name email department now in
           result <- await (insertOne employeesCollectionName newEmployee) ;;
           if acknowledged result then
             (template name ;;;
              now' <- await newDate ;;
              let companyListEntry := companyListEntry name now' in
              await (insertOne companyListCollectionName companyListEntry) ;;;
              template name ;;;
              ret (json 201
                     (VObj [("message",
                             VStr "Employee added successfully and synced to company list.");
                            ("employee",
                             VObj (spread [("_id", insertedId result)] newEmployee))])))
           else
             ret (json 500 (error_body "Failed to add employee.")))%block
          (fun err =>
             Ret (json 500 (error_body "Failed to add employee due to server error.")))
  end.

(** ** GET /employees and GET /company-list (lines 112 to 137) *)

Definition get_employees (db : option Db) : prog response :=
  match db with
  | None => Ret (json 503 (error_body "Database not connected"))
  | Some _ =>
      try_catch
        (employees <- await (findToArray employeesCollectionName) ;;
         ret (json 200 (VArr (map VObj employees))))%block
        (fun err => Ret (json 500 (error_body "Failed to retrieve employee data")))
  end.

Definition get_company_list (db : option Db) : prog response :=
  match db with
  | None => Ret (json 503 (error_body "Database not connected"))
  | Some _ =>
      try_catch
        (companyUsers <- await (findToArray companyListCollectionName) ;;
         ret (json 200 (VArr (map VObj companyUsers))))%block
        (fun err => Ret (json 500 (error_body "Failed to retrieve company list data")))
  end.

(** ** The router *)

Inductive request : Type :=
| GET_health
| GET_greet (query_name : option qvalue)
| POST_employees (req_body : object)
| GET_employees
| GET_company_list.

Definition handle (db : option Db) (req : request) : prog response :=
  match req with
  | GET_health => health db
  | GET_greet q => greet q
  | POST_employees b => post_employees db b
  | GET_employees => get_employees db
  | GET_company_list => get_company_list db
  end.

(** A request with the response it got and the calls its handler made. *)
Record exchange : Type := Exchange
  { asked : request;
    answered : response;
    calls : list event }.

(** Requests handled one after the other, each to completion: the
    schedule in which no two requests overlap. *)
Fixpoint serve (db : option Db) (reqs : list request) (o : oracle) (w : world)
  : list exchange * world * oracle :=
  match reqs with
  | [] => ([], w, o)
  | req :: reqs' =>
      let r := run (handle db req) o w in
      let '(xs, w', o') := serve db reqs' (remaining r) (store r) in
      (Exchange req (returned r) (trace r) :: xs, w', o')
  end.

(** ** Requests in flight *)

(** A handler suspends at each call it awaits, and other handlers run
    meanwhile.  A handler in flight is the request it serves, what is left
    of its program and the calls it has made so far; it has answered when
    what is left is [Ret] of a response.  Each call takes effect at one
    point between its start and its end, and any handler in flight may make
    the next call: this allows every order the event loop allows (and, as
    clock readings are calls here, some more). *)
Record handler : Type := Handler
  { serving : request;
    rest : prog response;
    events : list event }.

(** What happens next: a request arrives, or the [i]-th handler's pending
    call is performed and the handler runs on to its next call. *)
Inductive action : Type :=
| Arrive (req : request)
| Resume (i : nat).

Record server : Type := Server
  { handlers : list handler;
    database : world;
    environment : oracle }.

Definition resume (h : handler) (o : oracle) (w : world)
  : handler * world * oracle :=
  match rest h with
  | Ret _ => (h, w, o)
  | Await c k =>
      let '(a, w', o') := perform c o w in
      (Handler (serving h) (k a) (events h ++ [Event c a]), w', o')
  end.

Definition act (db : option Db) (s : server) (a : action) : server :=
  match a with
  | Arrive req =>
      Server (handlers s ++ [Handler req (handle db req) []])
             (database s) (environment s)
  | Resume i =>
      match handlers s !! i with
      | None => s
      | Some h =>
          let '(h', w', o') := resume h (environment s) (database s) in
          Server (<[i := h']> (handlers s)) w' o'
      end
  end.

(** Any interleaving of the handlers' calls, with [db] as startup left it:
    the actions in turn, from a server with no request in flight. *)
Definition interleave (db : option Db) (acts : list action) (s : server) : server :=
  fold_left (act db) acts s.

Definition idle (o : oracle) (w : world) : server := Server [] w o.

(** * Vocabulary of the statements *)

(** ** Concrete inputs *)

(** The database handle [connectToMongo] assigns to [db]. *)
Definition voiceowl : Db := {| databaseName := dbName |}.

Definition ann_body : object := [("name", VStr "Ann"); ("email", VStr "ann@voiceowl.com")].

Definition no_email_body : object := [("name", VStr "Ann")].

Definition empty_name_body : object :=
  [("name", VStr ""); ("email", VStr "ann@voiceowl.com")].

(** The store after a first startup in which every call succeeds. *)
Definition after_startup : world :=
  store (run (connectToMongo (mongoUri None)) calm empty_store).

(** An oracle under which the connection opens, the count and the seed
    insert into the primary collection succeed, and the mirror insert
    throws. *)
Definition mirror_fails : oracle :=
  {| fates := [Succeeds; Succeeds; Succeeds; Throws]; clock := [] |}.

(** The primary insert succeeds and the mirror insert throws; later calls
    succeed. *)
Definition mirror_insert_fails : oracle :=
  {| fates := [Succeeds; Throws]; clock := [] |}.

Definition a_session : list request :=
  [POST_employees ann_body; POST_employees ann_body;
   POST_employees no_email_body; GET_employees].

(** ** What a run did *)

(** An insert that resolved with [acknowledged: true]. *)
Definition acked_insert (e : event) : bool :=
  match e with
  | Event (insertOne _ _) (inr res) => acknowledged res
  | _ => false
  end.

(** The status of a POST /employees that fails validation: the connection
    guard comes before the validation. *)
Definition rejected_status (db : option Db) : Z :=
  match db with
  | Some _ => 400
  | None => 503
  end.

Definition greeting (text : string) : response :=
  json 200 (VObj [("message", VStr text)]).

(** The answer of a listing endpoint over collection [coll], by the handle
    and the fate of its one [find]. *)
Definition listing (db : option Db) (f : fate) (w : world) (coll failure : string)
  : response :=
  match db with
  | None => json 503 (error_body "Database not connected")
  | Some _ =>
      match f with
      | Throws => json 500 (error_body failure)
      | _ => json 200 (VArr (map VObj (collection w coll)))
      end
  end.

(** The seed Employees and their mirror entries as the store holds them,
    with identities drawn from [n] on. *)
Definition stored_seedEmployees (n : nat) : list object :=
  zip_with with_id (fresh_ids n 2) seedEmployees.

Definition stored_seedCompanyList (n : nat) (t1 t2 : Z) : list object :=
  zip_with with_id (fresh_ids n 2) (seedCompanyList t1 t2).

Definition names (docs : list object) : list value :=
  map (fun d => get d "name") docs.

(** The mirror [insertMany] of the seeding threw. *)
Definition mirror_seed_threw (e : event) : bool :=
  match e with
  | Event (insertMany coll _) (inl _) => String.eqb coll companyListCollectionName
  | _ => false
  end.

(** The connection was opened. *)
Definition connected (e : event) : bool :=
  match e with
  | Event (connect _) (inr _) => true
  | _ => false
  end.

(** The records a handler has added to the primary and to the secondary
    collection so far. *)
Definition primary_of (h : handler) : list object :=
  added_by employeesCollectionName (events h).

Definition mirror_of (h : handler) : list object :=
  added_by companyListCollectionName (events h).

(** An Employee record and a company-list entry as the store holds them,
    and the Employee object a 201 response reports. *)
Definition stored_employee (id name email department : value) (t : Z) : object :=
  [("_id", id); ("name", bson name); ("email", bson email);
   ("department", bson department); ("addedDate", VDate t)].

Definition stored_entry (id name : value) (t : Z) : object :=
  [("_id", id); ("name", bson name); ("addedAt", VDate t)].

Definition reported_employee (id name email department : value) (t : Z) : object :=
  [("_id", id); ("name", name); ("email", email); ("department", department);
   ("addedDate", VDate t)].

(** What a handler has contributed, by how far it is.
    - answered 201: it serves a POST /employees; it added one Employee
      record, the one the response reports, and one mirror entry with its
      name;
    - answered with any other status: no mirror entry;
    - answered 200, 400 or 503: no Employee record either;
    - answered 500: no Employee record, or the record of a POST /employees
      whose primary insert was applied before the request failed;
    - not answered yet: no mirror entry, and no Employee record or the
      record of a POST /employees whose primary insert has been applied. *)
Definition contribution (h : handler) : Prop :=
  match rest h with
  | Ret resp =>
      (status resp = 201 ->
       exists (req_body : object) (t1 t2 : Z) (id id' : value),
         let name := get req_body "name" in
         let email := get req_body "email" in
         let department := get req_body "department" in
         serving h = POST_employees req_body
         /\ primary_of h = [stored_employee id name email department t1]
         /\ mirror_of h = [stored_entry id' name t2]
         /\ resp
            = json 201
                (VObj [("message",
                        VStr "Employee added successfully and synced to company list.");
                       ("employee",
                        VObj (reported_employee id name email department t1))]))
      /\ (status resp <> 201 -> mirror_of h = [])
      /\ (status resp = 200 \/ status resp = 400 \/ status resp = 503 ->
          primary_of h = [])
      /\ (status resp = 500 ->
          primary_of h = []
          \/ exists (req_body : object) (t1 : Z) (id : value),
              serving h = POST_employees req_body
              /\ primary_of h
                 = [stored_employee id (get req_body "name") (get req_body "email")
                                    (get req_body "department") t1])
  | Await _ _ =>
      mirror_of h = []
      /\ (primary_of h = []
          \/ exists (req_body : object) (t1 : Z) (id : value),
              serving h = POST_employees req_body
              /\ primary_of h
                 = [stored_employee id (get req_body "name") (get req_body "email")
                                    (get req_body "department") t1])
  end.

(** [Q] holds of a program and the calls made so far, and of everything
    the program can become, whatever its calls resolve to. *)
Fixpoint always {R : Type} (Q : prog R -> list event -> Prop) (p : prog R)
    (t : list event) : Prop :=
  Q p t
  /\ match p with
     | Ret _ => True
     | Await c k => forall a : error + reply c, always Q (k a) (t ++ [Event c a])
     end.

(** A call that writes, if it does, to [employees] or to [company_list]. *)
Definition targets (c : call) : bool :=
  match c with
  | insertOne coll _ | insertMany coll _ =>
      String.eqb coll employeesCollectionName
      || String.eqb coll companyListCollectionName
  | _ => true
  end.

(** Every call a program can come to make is such a call. *)
Fixpoint writes_only {R : Type} (p : prog R) : Prop :=
  match p with
  | Ret _ => True
  | Await c k => targets c = true /\ forall a : error + reply c, writes_only (k a)
  end.


(** ** The oracle, call by call *)

(** The fate of the [k]-th store call and the [k]-th reading of the clock
    (from 0). *)
Definition fate_of (o : oracle) (k : nat) : fate := nth k (fates o) Succeeds.

Definition reading (o : oracle) (k : nat) : Z := nth k (clock o) 0.

(** ** More concrete inputs *)

(** A body with properties the handler does not read. *)
Definition ann_body_with_more : object :=
  ann_body ++ [("_id", VStr "chosen"); ("role", VStr "admin");
               ("addedDate", VStr "yesterday")].

Definition primary_insert_throws : oracle :=
  {| fates := [Throws]; clock := [1700000000000] |}.

Definition primary_insert_unacknowledged : oracle :=
  {| fates := [Unacknowledged]; clock := [1700000000000] |}.

Definition bob_body : object :=
  [("name", VStr "Bob"); ("email", VStr "bob@voiceowl.com");
   ("department", VStr "Sales")].

(** Two POSTs in flight together: the first inserts its record first, the
    second its mirror entry first. *)
Definition overlapping_posts : list action :=
  [Arrive (POST_employees ann_body); Arrive (POST_employees bob_body);
   Resume 0; Resume 0; Resume 1; Resume 1; Resume 1; Resume 1;
   Resume 0; Resume 0].



(** ** More of what a run did *)

Definition is_post (req : request) : bool :=
  match req with
  | POST_employees _ => true
  | _ => false
  end.

(** The record POST /employees builds from a body at time [now]. *)
Definition record_of (req_body : object) (now : Z) : object :=
  newEmployee (get req_body "name") (get req_body "email")
              (get req_body "department") now.

Definition created (id : value) (record : object) : response :=
  json 201
    (VObj [("message",
            VStr "Employee added successfully and synced to company list.");
           ("employee", VObj (with_id id record))]).

(** The calls a run made, without what they resolved to. *)
Definition made_calls {R : Type} (r : run_result R) : list call :=
  map made (trace r).

(** Every entry of the secondary collection has a record of its own in the
    primary collection with the same name: the names of the one are among
    the names of the other, counted with repetitions. *)
Definition mirrored (w : world) : Prop :=
  names (collection w companyListCollectionName)
  ⊆+ names (collection w employeesCollectionName).

(** A name that cannot be converted to a string. *)
Definition odd_name_body : object :=
  [("name", VObj [("toString", VNum 1%float)]); ("email", VStr "odd@voiceowl.com")].

(** * Properties *)

(** ** The store only grows, and only by the inserts a run makes *)

Lemma collection_append_same (w : world) (coll : string) (docs : list object) :
  collection (append_docs w coll docs) coll = collection w coll ++ docs.
Proof.
  unfold collection, append_docs; simpl.
  by rewrite lookup_insert_eq.
Qed.

Lemma collection_append_other (w : world) (coll coll' : string) (docs : list object) :
  coll ≠ coll' ->
  collection (append_docs w coll docs) coll' = collection w coll'.
Proof.
  intros Hne. unfold collection, append_docs; simpl.
  by rewrite lookup_insert_ne.
Qed.

Lemma collection_append (w : world) (c coll : string) (docs : list object) :
  collection (append_docs w c docs) coll
  = collection w coll ++ (if String.eqb c coll then docs else []).
Proof.
  destruct (String.eqb_spec c coll) as [-> | Hne].
  - apply collection_append_same.
  - rewrite collection_append_other by done. by rewrite app_nil_r.
Qed.

Lemma perform_added (c : call) (o : oracle) (w : world) (coll : string) :
  collection (perform c o w).1.2 coll
  = collection w coll ++ added coll (Event c (perform c o w).1.1).
Proof.
  destruct c; simpl;
    try (destruct (next_fate o) as [[] o']; simpl;
         rewrite ?collection_append; try destruct (String.eqb _ _);
         by rewrite ?app_nil_r).
  destruct (next_time o) as [t o']; simpl. by rewrite app_nil_r.
Qed.

Lemma run_await {R : Type} (c : call) (k : error + reply c -> prog R)
    (o : oracle) (w : world) :
  run (Await c k) o w
  = let r := run (k (perform c o w).1.1) (perform c o w).2 (perform c o w).1.2 in
    Ran (returned r) (store r) (remaining r)
        (Event c (perform c o w).1.1 :: trace r).
Proof. simpl. by destruct (perform c o w) as [[a w'] o']. Qed.

Lemma run_added {R : Type} (p : prog R) (o : oracle) (w : world) (coll : string) :
  collection (store (run p o w)) coll
  = collection w coll ++ added_by coll (trace (run p o w)).
Proof.
  revert o w. induction p as [r | c k IH]; intros o w.
  - simpl. by rewrite app_nil_r.
  - rewrite run_await. simpl. rewrite IH, perform_added.
    by rewrite <- app_assoc.
Qed.

(** ** POST /employees *)

Arguments append_docs : simpl never.
Arguments collection : simpl never.

Arguments next_fate : simpl never.
Arguments next_time : simpl never.

(** Follows a run call by call, splitting on the fate the oracle gives each
    store call. *)
Ltac follow_run :=
  cbn;
  repeat
    (match goal with
     | |- context [next_time ?o] =>
         let t := fresh "t" in
         let o' := fresh "o" in
         destruct (next_time o) as [t o']
     | |- context [next_fate ?o] =>
         let o' := fresh "o" in
         destruct (next_fate o) as [[] o']
     end; cbn).

Lemma post_employees_unconnected (req_body : object) (o : oracle) (w : world) :
  run (post_employees None req_body) o w
  = Ran (json 503 (error_body "Database not connected")) w o [].
Proof. reflexivity. Qed.

Lemma post_employees_invalid (d : Db) (req_body : object) (o : oracle) (w : world) :
  truthy (get req_body "name") && truthy (get req_body "email") = false ->
  run (post_employees (Some d) req_body) o w
  = Ran (json 400 (error_body "Name and email are required.")) w o [].
Proof.
  intros H. unfold post_employees.
  destruct (truthy (get req_body "name")), (truthy (get req_body "email"));
    simpl in *; done.
Qed.

(** When [name] and [email] pass the validation, [name] can be converted to
    a string and the store acknowledges the first two calls made to it, the
    handler makes two inserts and both succeed. *)
Lemma post_employees_two_inserts (d : Db) (req_body : object) (o : oracle)
    (w : world) :
  truthy (get req_body "name") = true ->
  truthy (get req_body "email") = true ->
  stringifies (get req_body "name") = true ->
  nth 0 (fates o) Succeeds = Succeeds ->
  nth 1 (fates o) Succeeds = Succeeds ->
  length (List.filter acked_insert
                      (trace (run (post_employees (Some d) req_body) o w)))
  = 2%nat.
Proof.
  intros Hn He Hs Hf1 Hf2. unfold post_employees, template. rewrite Hn, He, Hs.
  destruct o as [fs cl].
  destruct fs as [| f1 [| f2 fs]]; simpl in Hf1, Hf2; subst;
    destruct cl as [| t1 [| t2 cl]]; reflexivity.
Qed.

(** C1. A POST /employees whose body has [name] and [email], handled with the
    store connected, and whose two inserts succeed (the handler made two
    inserts and both were acknowledged): the handler read the clock,
    inserted the full Employee record [{ name, email, department,
    addedDate }] into [employees], read the clock again, inserted the entry
    [{ name, addedAt }] derived from the same name into [company_list], and
    answered 201 with the record and the identity the first insert
    returned.  The primary collection gained that record under that
    identity and the secondary collection gained that entry, each as the
    driver writes it (a [department] that is absent is written as [null]).
    The entry has the record's name and neither [email] nor
    [department]. *)
Theorem post_employees_created (d : Db) (req_body : object) (o : oracle) (w : world) :
  let r := run (post_employees (Some d) req_body) o w in
  has req_body "name" = true ->
  has req_body "email" = true ->
  length (List.filter acked_insert (trace r)) = 2%nat ->
  exists (t1 t2 : Z) (id id' : value),
    let name := get req_body "name" in
    let email := get req_body "email" in
    let department := get req_body "department" in
    let record : object :=
      [("name", name); ("email", email); ("department", department);
       ("addedDate", VDate t1)] in
    let entry : object := [("name", name); ("addedAt", VDate t2)] in
    trace r
    = [ Event newDate (inr t1);
        Event (insertOne "employees" record)
              (inr {| acknowledged := true; insertedId := id |});
        Event newDate (inr t2);
        Event (insertOne "company_list" entry)
              (inr {| acknowledged := true; insertedId := id' |}) ]
    /\ collection (store r) "employees"
       = collection w "employees"
         ++ [ [("_id", id); ("name", bson name); ("email", bson email);
               ("department", bson department); ("addedDate", VDate t1)] ]
    /\ collection (store r) "company_list"
       = collection w "company_list"
         ++ [ [("_id", id'); ("name", bson name); ("addedAt", VDate t2)] ]
    /\ returned r
       = json 201
           (VObj [("message",
                   VStr "Employee added successfully and synced to company list.");
                  ("employee", VObj (("_id", id) :: record))])
    /\ get entry "name" = get record "name"
    /\ has entry "email" = false
    /\ has entry "department" = false.
Proof.
  intros r _ _ Hlen.
  assert (Hadd := fun coll => run_added (post_employees (Some d) req_body) o w coll).
  fold r in Hadd.
  destruct (truthy (get req_body "name") && truthy (get req_body "email")) eqn:Hv.
  2: { unfold r in Hlen. by rewrite post_employees_invalid in Hlen. }
  apply andb_true_iff in Hv as [Hn He].
  revert Hlen Hadd. unfold r, post_employees, template. rewrite Hn, He.
  destruct (stringifies (get req_body "name"));
    follow_run; intros Hlen Hadd; try discriminate Hlen.
  do 4 eexists. split; [reflexivity |].
  by rewrite !Hadd.
Qed.

Lemma post_employees_created_witness :
  has ann_body "name" = true
  /\ has ann_body "email" = true
  /\ exists (t1 t2 : Z) (id id' : value),
      returned (run (post_employees (Some voiceowl) ann_body) calm empty_store)
      = json 201
          (VObj [("message",
                  VStr "Employee added successfully and synced to company list.");
                 ("employee",
                  VObj [("_id", id); ("name", VStr "Ann");
                        ("email", VStr "ann@voiceowl.com");
                        ("department", VUndefined); ("addedDate", VDate t1)])])
      /\ collection
           (store (run (post_employees (Some voiceowl) ann_body) calm empty_store))
           "employees"
         = [ [("_id", id); ("name", VStr "Ann"); ("email", VStr "ann@voiceowl.com");
              ("department", VNull); ("addedDate", VDate t1)] ]
      /\ collection
           (store (run (post_employees (Some voiceowl) ann_body) calm empty_store))
           "company_list"
         = [ [("_id", id'); ("name", VStr "Ann"); ("addedAt", VDate t2)] ].
Proof.
  split; [reflexivity |]. split; [reflexivity |].
  destruct (post_employees_created voiceowl ann_body calm empty_store
              eq_refl eq_refl eq_refl)
    as (t1 & t2 & id & id' & _ & He & Hm & Hr & _).
  exists t1, t2, id, id'. split; [exact Hr |]. split; [exact He | exact Hm].
Defined.

(** The falsy values a JSON body can carry, and [NaN]. *)
Example falsy_values :
  map truthy [VStr ""; VNum 0%float; VNum (-0)%float; VNum nan; VBool false;
              VNull; VUndefined]
  = [false; false; false; false; false; false; false].
Proof. reflexivity. Qed.

Example truthy_values :
  map truthy [VStr "0"; VStr " "; VNum 0.5%float; VBool true; VArr []; VObj []]
  = [true; true; true; true; true; true].
Proof. reflexivity. Qed.

Lemma get_missing (o : object) (k : string) :
  has o k = false -> get o k = VUndefined.
Proof. unfold has, get. by destruct (own o k). Qed.

Lemma post_employees_rejected (db : option Db) (req_body : object)
    (o : oracle) (w : world) :
  truthy (get req_body "name") && truthy (get req_body "email") = false ->
  let r := run (post_employees db req_body) o w in
  status (returned r) = rejected_status db /\ trace r = [] /\ store r = w.
Proof.
  intros H. destruct db as [d |]; cbv zeta.
  - by rewrite post_employees_invalid.
  - by rewrite post_employees_unconnected.
Qed.

(** C4, as amended.  A POST /employees whose body lacks [name] or lacks
    [email] is answered 400 when the store is connected (and 503 when it is
    not); in both cases the handler makes no call, so neither collection
    changes. *)
Theorem post_employees_missing_field (db : option Db) (req_body : object)
    (o : oracle) (w : world) :
  has req_body "name" = false \/ has req_body "email" = false ->
  let r := run (post_employees db req_body) o w in
  status (returned r) = rejected_status db
  /\ trace r = []
  /\ store r = w.
Proof.
  intros H. apply post_employees_rejected.
  destruct H as [H | H]; rewrite (get_missing _ _ H); simpl;
    [done | by rewrite andb_false_r].
Qed.

Lemma post_employees_missing_field_witness :
  has no_email_body "email" = false
  /\ status (returned (run (post_employees (Some voiceowl) no_email_body)
                           calm empty_store)) = 400
  /\ store (run (post_employees (Some voiceowl) no_email_body) calm empty_store)
     = empty_store.
Proof.
  split; [reflexivity |].
  destruct (post_employees_missing_field (Some voiceowl) no_email_body calm
              empty_store (or_intror eq_refl)) as (Hs & _ & Hw).
  split; [exact Hs | exact Hw].
Defined.

(** C4, as stated, fails before the store is connected: a body without
    [email] is answered 503, not 400. *)
Lemma post_missing_field_unconnected_503 :
  has no_email_body "email" = false
  /\ status (returned (run (post_employees None no_email_body) calm empty_store))
     = 503
  /\ status (returned (run (post_employees None no_email_body) calm empty_store))
     <> 400.
Proof. repeat split; done. Qed.

(** C9, as amended.  A POST /employees whose [name] or [email] is present
    but falsy (the empty string, [0], [false], [null]) is answered 400 when
    the store is connected (and 503 when it is not); in both cases the
    handler makes no call, so no record is created. *)
Theorem post_employees_falsy_field (db : option Db) (req_body : object)
    (o : oracle) (w : world) :
  (has req_body "name" = true /\ truthy (get req_body "name") = false)
  \/ (has req_body "email" = true /\ truthy (get req_body "email") = false) ->
  let r := run (post_employees db req_body) o w in
  status (returned r) = rejected_status db
  /\ trace r = []
  /\ store r = w.
Proof.
  intros H. apply post_employees_rejected.
  destruct H as [[_ H] | [_ H]]; rewrite H; simpl;
    [done | by rewrite andb_false_r].
Qed.

Lemma post_employees_falsy_field_witness :
  (has empty_name_body "name" = true /\ truthy (get empty_name_body "name") = false)
  /\ status (returned (run (post_employees (Some voiceowl) empty_name_body)
                           calm empty_store)) = 400
  /\ trace (run (post_employees (Some voiceowl) empty_name_body) calm empty_store)
     = [].
Proof.
  split; [split; reflexivity |].
  destruct (post_employees_falsy_field (Some voiceowl) empty_name_body calm
              empty_store (or_introl (conj eq_refl eq_refl))) as (Hs & Ht & _).
  split; [exact Hs | exact Ht].
Defined.

(** C9, as stated, fails before the store is connected: a body whose [name]
    is the empty string is answered 503, not 400. *)
Lemma post_falsy_field_unconnected_503 :
  has empty_name_body "name" = true
  /\ truthy (get empty_name_body "name") = false
  /\ status (returned (run (post_employees None empty_name_body) calm empty_store))
     = 503
  /\ status (returned (run (post_employees None empty_name_body) calm empty_store))
     <> 400.
Proof. repeat split; done. Qed.

(** ** GET /health *)

(** C6. GET /health answers 200 when the global [db] is set and 503 when it
    is not, and makes no call at all: whatever the store would answer (every
    call may be about to throw), the answer depends on the handle alone, the
    store is untouched and the oracle is not consulted. *)
Theorem health_reads_handle_only (db : option Db) (o : oracle) (w : world) :
  let r := run (health db) o w in
  returned r
  = match db with
    | Some _ => send 200 "OK (MongoDB Connected)"
    | None => send 503 "Service Unavailable: MongoDB not connected"
    end
  /\ status (returned r) = match db with Some _ => 200 | None => 503 end
  /\ trace r = []
  /\ store r = w
  /\ remaining r = o.
Proof. by destruct db. Qed.

(** A handle that is set on a store whose every call throws: still 200. *)
Example health_dead_store :
  status (returned (run (health (Some voiceowl))
                        {| fates := [Throws; Throws; Throws]; clock := [] |}
                        empty_store)) = 200.
Proof. reflexivity. Qed.

(** ** GET /greet *)

(** C8. GET /greet without a [name] parameter answers 200 with the message
    "Hello, World!"; with [name=Ann] it answers "Hello, Ann!"; and with any
    non-empty string [s] for [name] it answers "Hello, s!". *)
Theorem greet_message (s : string) (o : oracle) (w : world) :
  s <> "" ->
  returned (run (greet None) o w) = greeting "Hello, World!"
  /\ returned (run (greet (Some (QStr "Ann"))) o w) = greeting "Hello, Ann!"
  /\ returned (run (greet (Some (QStr s))) o w) = greeting ("Hello, " +:+ s +:+ "!").
Proof.
  intros Hs. repeat split.
  unfold greet, name_or_World, q_truthy.
  destruct (String.eqb_spec s "") as [-> | _]; done.
Qed.

Lemma greet_message_witness :
  "Bob" <> ""
  /\ returned (run (greet None) calm empty_store) = greeting "Hello, World!"
  /\ returned (run (greet (Some (QStr "Ann"))) calm empty_store)
     = greeting "Hello, Ann!"
  /\ returned (run (greet (Some (QStr "Bob"))) calm empty_store)
     = greeting "Hello, Bob!".
Proof.
  assert (Hne : "Bob" <> "") by discriminate.
  split; [exact Hne |].
  exact (greet_message "Bob" calm empty_store Hne).
Defined.

(** An empty [name] also greets the world; a repeated one is joined. *)
Example greet_empty_name :
  returned (run (greet (Some (QStr ""))) calm empty_store) = greeting "Hello, World!".
Proof. reflexivity. Qed.

Example greet_repeated_name :
  returned (run (greet (Some (QArr [QStr "Ann"; QStr "Bob"]))) calm empty_store)
  = greeting "Hello, Ann,Bob!".
Proof. reflexivity. Qed.

(** ** GET /employees and GET /company-list *)

Lemma get_employees_run (db : option Db) (o : oracle) (w : world) :
  let r := run (get_employees db) o w in
  returned r
  = listing db (next_fate o).1 w employeesCollectionName
            "Failed to retrieve employee data"
  /\ store r = w
  /\ added_by employeesCollectionName (trace r) = []
  /\ added_by companyListCollectionName (trace r) = [].
Proof. destruct db; [unfold get_employees; follow_run |]; done. Qed.

Lemma get_company_list_run (db : option Db) (o : oracle) (w : world) :
  let r := run (get_company_list db) o w in
  returned r
  = listing db (next_fate o).1 w companyListCollectionName
            "Failed to retrieve company list data"
  /\ store r = w
  /\ added_by employeesCollectionName (trace r) = []
  /\ added_by companyListCollectionName (trace r) = [].
Proof. destruct db; [unfold get_company_list; follow_run |]; done. Qed.

Lemma listing_status (db : option Db) (f : fate) (w : world) (coll failure : string) :
  status (listing db f w coll failure) = 200
  \/ status (listing db f w coll failure) = 500
  \/ status (listing db f w coll failure) = 503.
Proof. destruct db, f; simpl; auto. Qed.

(** C10. GET /employees and GET /company-list are read-only: whether the
    answer is 200, 500 or 503 (there is no other), the store after the
    request is the store before it, so neither collection is modified. *)
Theorem listing_endpoints_read_only (db : option Db) (o : oracle) (w : world) :
  let re := run (get_employees db) o w in
  let rc := run (get_company_list db) o w in
  (store re = w
   /\ collection (store re) employeesCollectionName
      = collection w employeesCollectionName
   /\ collection (store re) companyListCollectionName
      = collection w companyListCollectionName
   /\ (status (returned re) = 200 \/ status (returned re) = 500
       \/ status (returned re) = 503))
  /\ (store rc = w
      /\ collection (store rc) employeesCollectionName
         = collection w employeesCollectionName
      /\ collection (store rc) companyListCollectionName
         = collection w companyListCollectionName
      /\ (status (returned rc) = 200 \/ status (returned rc) = 500
          \/ status (returned rc) = 503)).
Proof.
  intros re rc.
  destruct (get_employees_run db o w) as (He & Hwe & _).
  destruct (get_company_list_run db o w) as (Hc & Hwc & _).
  fold re in He, Hwe. fold rc in Hc, Hwc.
  rewrite Hwe, Hwc, He, Hc.
  repeat split; apply listing_status.
Qed.

(** ** Startup *)

(** The runs of [connectToMongo], by what the primary collection held. *)
Lemma connectToMongo_run (uri : string) (o : oracle) (w : world) :
  let r := run (connectToMongo uri) o w in
  (returned r = Exited 1 /\ existsb threw (trace r) = true
   \/ returned r = Running (Some voiceowl) /\ existsb threw (trace r) = false)
  /\ match collection w employeesCollectionName with
     | [] =>
         existsb threw (trace r) = false /\
         existsb mirror_seed_threw (trace r) = false /\
         (exists t1 t2 : Z,
            store r
            = append_docs
                (append_docs w employeesCollectionName
                             (stored_seedEmployees (next_id w)))
                companyListCollectionName
                (stored_seedCompanyList (next_id w + 2) t1 t2))
         \/ existsb threw (trace r) = true /\
            (existsb mirror_seed_threw (trace r) = false /\ store r = w
             \/ existsb mirror_seed_threw (trace r) = true /\
                store r
                = append_docs w employeesCollectionName
                              (stored_seedEmployees (next_id w)))
     | _ :: _ => store r = w /\ existsb mirror_seed_threw (trace r) = false
     end.
Proof.
  unfold connectToMongo.
  destruct (collection w employeesCollectionName) as [| doc docs] eqn:Hc;
    follow_run; rewrite ?Hc; follow_run;
    (split; [auto |]); eauto 8.
Qed.

(** C7. Startup against a store whose primary collection is empty, when no
    call of the startup throws: afterwards the primary collection holds
    exactly the two seed Employees, the secondary collection has gained
    exactly two entries (so a fresh store holds exactly two), their names
    are the names of the two seeded Employees, and the process runs with
    [db] set.  When the primary collection is not empty, nothing is seeded:
    the store is left as it was. *)
Theorem startup_seeding (uri : string) (o : oracle) (w : world) :
  let r := run (connectToMongo uri) o w in
  (collection w employeesCollectionName = [] ->
   existsb threw (trace r) = false ->
   exists t1 t2 : Z,
     collection (store r) employeesCollectionName
     = stored_seedEmployees (next_id w)
     /\ length (collection (store r) employeesCollectionName) = 2%nat
     /\ collection (store r) companyListCollectionName
        = collection w companyListCollectionName
          ++ stored_seedCompanyList (next_id w + 2) t1 t2
     /\ (collection w companyListCollectionName = [] ->
         collection (store r) companyListCollectionName
         = stored_seedCompanyList (next_id w + 2) t1 t2)
     /\ length (stored_seedCompanyList (next_id w + 2) t1 t2) = 2%nat
     /\ names (stored_seedCompanyList (next_id w + 2) t1 t2)
        = names (collection (store r) employeesCollectionName)
     /\ returned r = Running (Some voiceowl))
  /\ (collection w employeesCollectionName <> [] -> store r = w).
Proof.
  intros r.
  destruct (connectToMongo_run uri o w) as [Hret Hst]. fold r in Hret, Hst.
  split.
  - intros Hc Hok. rewrite Hc in Hst.
    destruct Hst as [(_ & _ & t1 & t2 & Hw) | [Hthrew _]]; [| congruence].
    exists t1, t2. rewrite Hw.
    rewrite collection_append_other by done.
    rewrite !collection_append_same, Hc.
    rewrite collection_append_other by done.
    destruct Hret as [[_ Hthrew] | [Hrun _]]; [congruence |].
    repeat split; try done.
    by intros ->.
  - intros Hc.
    destruct (collection w employeesCollectionName); [done | apply Hst].
Qed.

Lemma startup_seeding_witness :
  collection empty_store employeesCollectionName = []
  /\ (exists t1 t2 : Z,
        collection (store (run (connectToMongo (mongoUri None)) calm empty_store))
                   employeesCollectionName
        = stored_seedEmployees 0
        /\ collection (store (run (connectToMongo (mongoUri None)) calm empty_store))
                      companyListCollectionName
           = stored_seedCompanyList 2 t1 t2)
  /\ store (run (connectToMongo (mongoUri None)) calm
                (append_docs empty_store employeesCollectionName [ann_body]))
     = append_docs empty_store employeesCollectionName [ann_body].
Proof.
  split; [reflexivity |]. split.
  - destruct (startup_seeding (mongoUri None) calm empty_store) as [Hseed _].
    destruct (Hseed eq_refl eq_refl) as (t1 & t2 & He & _ & _ & Hm & _).
    exists t1, t2. split; [exact He | exact (Hm eq_refl)].
  - destruct (startup_seeding (mongoUri None) calm
                (append_docs empty_store employeesCollectionName [ann_body]))
      as [_ Hkeep].
    apply Hkeep. rewrite collection_append_same. discriminate.
Defined.

(** C5, as amended.  Startup ends the process (with exit code 1) exactly
    when one of its calls throws, whichever it is: opening the connection,
    counting the primary collection, or either seed insert; otherwise the
    process runs with [db] set.  When the mirror insert of the seeding
    throws, the seed Employees already inserted stay in the primary
    collection (there is no rollback), and the process is ended. *)
Theorem startup_exit (uri : string) (o : oracle) (w : world) :
  let r := run (connectToMongo uri) o w in
  (returned r = Exited 1 <-> existsb threw (trace r) = true)
  /\ (returned r = Running (Some voiceowl) <-> existsb threw (trace r) = false)
  /\ (existsb mirror_seed_threw (trace r) = true ->
      returned r = Exited 1
      /\ collection w employeesCollectionName = []
      /\ collection (store r) employeesCollectionName
         = stored_seedEmployees (next_id w)
      /\ collection (store r) companyListCollectionName
         = collection w companyListCollectionName).
Proof.
  intros r.
  destruct (connectToMongo_run uri o w) as [Hret Hst]. fold r in Hret, Hst.
  split; [| split].
  - destruct Hret as [[-> ->] | [-> ->]]; split; done.
  - destruct Hret as [[-> ->] | [-> ->]]; split; done.
  - intros Hm.
    destruct (collection w employeesCollectionName) as [| doc docs] eqn:Hc.
    2: { destruct Hst as [_ Hno]. congruence. }
    destruct Hst as [(_ & Hno & _) | [Hthrew [[Hno _] | [_ Hw]]]];
      [congruence | congruence |].
    destruct Hret as [[Hexit _] | [_ Hok]]; [| congruence].
    rewrite Hw, collection_append_same, Hc.
    rewrite collection_append_other by done.
    by repeat split.
Qed.

Lemma startup_exit_witness :
  existsb mirror_seed_threw
          (trace (run (connectToMongo (mongoUri None)) mirror_fails empty_store))
  = true
  /\ returned (run (connectToMongo (mongoUri None)) mirror_fails empty_store)
     = Exited 1
  /\ collection (store (run (connectToMongo (mongoUri None)) mirror_fails empty_store))
                employeesCollectionName
     = stored_seedEmployees 0.
Proof.
  split; [reflexivity |].
  destruct (startup_exit (mongoUri None) mirror_fails empty_store) as (_ & _ & H).
  destruct (H eq_refl) as (Hexit & _ & Hseeds & _).
  split; [exact Hexit | exact Hseeds].
Defined.

(** C5, as stated, fails: the connection was opened, the mirror insert of
    the seeding threw, and the process was ended all the same. *)
Lemma mirror_seed_failure_exits :
  existsb connected
          (trace (run (connectToMongo (mongoUri None)) mirror_fails empty_store))
  = true
  /\ existsb mirror_seed_threw
             (trace (run (connectToMongo (mongoUri None)) mirror_fails empty_store))
     = true
  /\ returned (run (connectToMongo (mongoUri None)) mirror_fails empty_store)
     = Exited 1
  /\ returned (run (connectToMongo (mongoUri None)) mirror_fails empty_store)
     <> Running (Some voiceowl).
Proof. repeat split; done. Qed.

(** C3 fails on the code.  The records startup adds to the primary
    collection have no [addedDate]: on an empty store both seed Employees
    are stored without it, whereas the record the add-employee endpoint
    builds has it. *)
Theorem seeded_employees_lack_addedDate (uri : string) (o : oracle) (w : world) :
  Forall (fun d => has d "addedDate" = false)
         (added_by employeesCollectionName (trace (run (connectToMongo uri) o w)))
  /\ map (fun d => has d "addedDate")
         (collection (store (run (connectToMongo (mongoUri None)) calm empty_store))
                     employeesCollectionName)
     = [false; false]
  /\ (forall (name email department : value) (now : Z),
        has (newEmployee name email department now) "addedDate" = true).
Proof.
  split; [| split; [reflexivity | done]].
  unfold connectToMongo.
  follow_run; try destruct (length _ =? 0)%nat; follow_run;
    repeat constructor.
Qed.

(** ** What the listing endpoints return while requests are in flight *)

Lemma always_now {R : Type} (Q : prog R -> list event -> Prop) (p : prog R)
    (t : list event) :
  always Q p t -> Q p t.
Proof. destruct p; simpl; tauto. Qed.

Lemma always_next {R : Type} (Q : prog R -> list event -> Prop) (c : call)
    (k : error + reply c -> prog R) (t : list event) (a : error + reply c) :
  always Q (Await c k) t -> always Q (k a) (t ++ [Event c a]).
Proof. simpl. intros [_ H]. apply H. Qed.

Lemma resume_always (Q : request -> prog response -> list event -> Prop)
    (h : handler) (o : oracle) (w : world) :
  always (Q (serving h)) (rest h) (events h) ->
  always (Q (serving (resume h o w).1.1)) (rest (resume h o w).1.1)
         (events (resume h o w).1.1).
Proof.
  unfold resume. destruct (rest h) as [resp | c k] eqn:Hrest.
  - simpl. by rewrite Hrest.
  - intros H. destruct (perform c o w) as [[a w'] o']. simpl.
    by apply always_next.
Qed.

Lemma interleave_always (db : option Db)
    (Q : request -> prog response -> list event -> Prop)
    (acts : list action) (s : server) :
  (forall req, always (Q req) (handle db req) []) ->
  Forall (fun h => always (Q (serving h)) (rest h) (events h)) (handlers s) ->
  Forall (fun h => always (Q (serving h)) (rest h) (events h))
         (handlers (interleave db acts s)).
Proof.
  intros Hnew. revert s. induction acts as [| a acts IH]; intros s Hs; [done |].
  simpl. apply IH. destruct a as [req | i]; simpl.
  - apply Forall_app. split; [done |]. constructor; [apply Hnew | constructor].
  - destruct (handlers s !! i) as [h |] eqn:Hi; [| done].
    assert (Hh := resume_always Q h (environment s) (database s)
                    (Forall_lookup_1 _ _ _ _ Hs Hi)).
    destruct (resume h (environment s) (database s)) as [[h' w'] o']. simpl in *.
    by apply Forall_insert.
Qed.

Lemma resume_added (h : handler) (o : oracle) (w : world) (coll : string) :
  exists delta : list object,
    collection (resume h o w).1.2 coll = collection w coll ++ delta
    /\ added_by coll (events (resume h o w).1.1)
       = added_by coll (events h) ++ delta.
Proof.
  unfold resume. destruct (rest h) as [resp | c k].
  - exists []. by rewrite !app_nil_r.
  - assert (Hp := perform_added c o w coll).
    destruct (perform c o w) as [[a w'] o']. simpl in *.
    exists (added coll (Event c a)). split; [done |].
    unfold added_by. rewrite flat_map_app. simpl. by rewrite app_nil_r.
Qed.

Lemma flat_map_insert {A B : Type} (f : A -> list B) (l : list A) (i : nat)
    (x y : A) (delta : list B) :
  l !! i = Some x ->
  f y = f x ++ delta ->
  flat_map f (<[i := y]> l) ≡ₚ flat_map f l ++ delta.
Proof.
  intros Hi Hy.
  rewrite insert_take_drop by (by eapply lookup_lt_Some).
  rewrite <- (take_drop_middle l i x Hi) at 3.
  rewrite !flat_map_app. simpl. rewrite Hy, <- !app_assoc.
  apply Permutation_app_head, Permutation_app_head, Permutation_app_comm.
Qed.

(** The store holds what it held plus what the handlers have added, in the
    order the inserts were applied. *)
Lemma interleave_accounting (db : option Db) (acts : list action) (s : server)
    (coll : string) :
  collection (database (interleave db acts s)) coll
  ++ flat_map (fun h => added_by coll (events h)) (handlers s)
  ≡ₚ collection (database s) coll
     ++ flat_map (fun h => added_by coll (events h))
                 (handlers (interleave db acts s)).
Proof.
  revert s. induction acts as [| a acts IH]; intros s; [done |].
  simpl. specialize (IH (act db s a)).
  destruct a as [req | i]; simpl in *.
  - rewrite flat_map_app in IH. simpl in IH. by rewrite !app_nil_r in IH.
  - destruct (handlers s !! i) as [h |] eqn:Hi; [| done].
    destruct (resume_added h (environment s) (database s) coll)
      as (delta & Hw & Hh).
    destruct (resume h (environment s) (database s)) as [[h' w'] o'].
    simpl in *.
    rewrite (flat_map_insert _ _ _ _ _ delta Hi Hh), Hw in IH.
    apply (Permutation_app_inv_r delta).
    rewrite <- !app_assoc in *.
    etrans; [exact IH |].
    apply Permutation_app_head, Permutation_app_comm.
Qed.

(** Explores everything a program can become, reply by reply. *)
Ltac explore :=
  cbn;
  repeat
    (match goal with
     | |- _ /\ _ => split
     | |- forall a : error + _, _ =>
         let a := fresh "a" in intros [a | a]
     | |- context [acknowledged ?r] =>
         is_var r; destruct r as [[] ?]
     end; cbn).

Ltac settle_contribution :=
  unfold contribution, primary_of, mirror_of; cbn;
  try (by intuition discriminate);
  try (right; do 3 eexists; split; reflexivity);
  try (intros _; right; do 3 eexists; split; reflexivity);
  try (intros _; do 5 eexists; repeat split; reflexivity).

(** Whatever its calls resolve to, and however far it has got, a handler
    has contributed what [contribution] says. *)
Lemma handle_always (db : option Db) (req : request) :
  always (fun p t => contribution (Handler req p t)) (handle db req) [].
Proof.
  destruct req as [| q | req_body | |]; simpl.
  - destruct db; explore; settle_contribution.
  - explore; settle_contribution.
  - destruct db as [d |]; [| explore; settle_contribution].
    unfold post_employees, template.
    destruct (truthy (get req_body "name")), (truthy (get req_body "email"));
      try (explore; settle_contribution).
    destruct (stringifies (get req_body "name")); explore; settle_contribution.
  - destruct db; unfold get_employees; explore; settle_contribution.
  - destruct db; unfold get_company_list; explore; settle_contribution.
Qed.

Lemma interleave_contribution (db : option Db) (acts : list action) (o : oracle)
    (w : world) :
  Forall contribution (handlers (interleave db acts (idle o w))).
Proof.
  assert (H := interleave_always db
                 (fun req p t => contribution (Handler req p t)) acts (idle o w)
                 (handle_always db) (Forall_nil_2 _)).
  eapply Forall_impl; [exact H |].
  intros [req p t] Hh. by apply always_now in Hh.
Qed.

Lemma interleave_collection (db : option Db) (acts : list action) (o : oracle)
    (w : world) (coll : string) :
  collection (database (interleave db acts (idle o w))) coll
  ≡ₚ collection w coll
     ++ flat_map (fun h => added_by coll (events h))
                 (handlers (interleave db acts (idle o w))).
Proof.
  assert (H := interleave_accounting db acts (idle o w) coll).
  simpl in H. by rewrite app_nil_r in H.
Qed.




(** * Further properties of the handlers *)

(** ** POST /employees when an insert fails *)

(** X1. When the body passes the validation and the insert into the primary
    collection throws, the answer is 500 with the server-error message, the
    handler stops there (it never reaches the mirror insert) and the store
    is left as it was. *)
Theorem post_primary_insert_throws (d : Db) (req_body : object) (o : oracle)
    (w : world) :
  truthy (get req_body "name") = true ->
  truthy (get req_body "email") = true ->
  fate_of o 0 = Throws ->
  let r := run (post_employees (Some d) req_body) o w in
  returned r = json 500 (error_body "Failed to add employee due to server error.")
  /\ trace r
     = [ Event newDate (inr (reading o 0));
         Event (insertOne employeesCollectionName (record_of req_body (reading o 0)))
               (inl MongoError) ]
  /\ store r = w.
Proof.
  intros Hn He Hf. cbv zeta. unfold post_employees. rewrite Hn, He.
  destruct o as [fs cl]. unfold fate_of, reading in *. simpl in Hf.
  destruct fs as [| f fs]; simpl in Hf; [discriminate | subst f].
  destruct cl as [| t cl]; repeat split; reflexivity.
Qed.

Lemma post_primary_insert_throws_witness :
  fate_of primary_insert_throws 0 = Throws
  /\ status (returned (run (post_employees (Some voiceowl) ann_body)
                           primary_insert_throws after_startup)) = 500
  /\ store (run (post_employees (Some voiceowl) ann_body)
                primary_insert_throws after_startup)
     = after_startup.
Proof.
  split; [reflexivity |].
  destruct (post_primary_insert_throws voiceowl ann_body primary_insert_throws
              after_startup eq_refl eq_refl eq_refl) as (Hr & _ & Hw).
  split; [by rewrite Hr | exact Hw].
Defined.

(** X2. When the body passes the validation and the insert into the primary
    collection resolves without acknowledgement, the answer is 500 with the
    message "Failed to add employee."; the handler makes no further call,
    so nothing is added to the secondary collection. *)
Theorem post_primary_insert_unacknowledged (d : Db) (req_body : object)
    (o : oracle) (w : world) :
  truthy (get req_body "name") = true ->
  truthy (get req_body "email") = true ->
  fate_of o 0 = Unacknowledged ->
  let r := run (post_employees (Some d) req_body) o w in
  returned r = json 500 (error_body "Failed to add employee.")
  /\ (exists id : value,
        trace r
        = [ Event newDate (inr (reading o 0));
            Event (insertOne employeesCollectionName
                             (record_of req_body (reading o 0)))
                  (inr {| acknowledged := false; insertedId := id |}) ])
  /\ collection (store r) companyListCollectionName
     = collection w companyListCollectionName.
Proof.
  intros Hn He Hf. cbv zeta. rewrite run_added.
  unfold post_employees. rewrite Hn, He.
  destruct o as [fs cl]. unfold fate_of, reading in *. simpl in Hf.
  destruct fs as [| f fs]; simpl in Hf; [discriminate | subst f].
  destruct cl as [| t cl];
    (split; [reflexivity |]); (split; [by eexists |]); apply app_nil_r.
Qed.

Lemma post_primary_insert_unacknowledged_witness :
  fate_of primary_insert_unacknowledged 0 = Unacknowledged
  /\ returned (run (post_employees (Some voiceowl) ann_body)
                   primary_insert_unacknowledged after_startup)
     = json 500 (error_body "Failed to add employee.")
  /\ collection (store (run (post_employees (Some voiceowl) ann_body)
                            primary_insert_unacknowledged after_startup))
                companyListCollectionName
     = collection after_startup companyListCollectionName.
Proof.
  split; [reflexivity |].
  destruct (post_primary_insert_unacknowledged voiceowl ann_body
              primary_insert_unacknowledged after_startup eq_refl eq_refl eq_refl)
    as (Hr & _ & Hc).
  split; [exact Hr | exact Hc].
Defined.

(** X3. When [name] can be converted to a string, the insert into the
    primary collection is acknowledged and the mirror insert throws, the
    answer is 500 with the server-error message; the thrown insert is the
    handler's last call, so the new Employee record stays in the primary
    collection, as the driver wrote it (nothing undoes it), while the
    handler adds nothing to the secondary collection. *)
Theorem post_mirror_insert_throws (d : Db) (req_body : object) (o : oracle)
    (w : world) :
  truthy (get req_body "name") = true ->
  truthy (get req_body "email") = true ->
  stringifies (get req_body "name") = true ->
  fate_of o 0 = Succeeds ->
  fate_of o 1 = Throws ->
  let r := run (post_employees (Some d) req_body) o w in
  returned r = json 500 (error_body "Failed to add employee due to server error.")
  /\ (exists id : value,
        trace r
        = [ Event newDate (inr (reading o 0));
            Event (insertOne employeesCollectionName
                             (record_of req_body (reading o 0)))
                  (inr {| acknowledged := true; insertedId := id |});
            Event newDate (inr (reading o 1));
            Event (insertOne companyListCollectionName
                             (companyListEntry (get req_body "name") (reading o 1)))
                  (inl MongoError) ]
        /\ collection (store r) employeesCollectionName
           = collection w employeesCollectionName
             ++ [stored_employee id (get req_body "name") (get req_body "email")
                                 (get req_body "department") (reading o 0)])
  /\ collection (store r) companyListCollectionName
     = collection w companyListCollectionName.
Proof.
  intros Hn He Hs Hf1 Hf2. cbv zeta. rewrite !run_added.
  unfold post_employees, template. rewrite Hn, He, Hs.
  destruct o as [fs cl]. unfold fate_of, reading in *. simpl in Hf1, Hf2.
  destruct fs as [| f1 [| f2 fs]]; simpl in Hf1, Hf2; try discriminate; subst.
  destruct cl as [| t1 [| t2 cl]];
    (split; [reflexivity |]); (split; [by eexists | apply app_nil_r]).
Qed.

Lemma post_mirror_insert_throws_witness :
  fate_of mirror_insert_fails 0 = Succeeds
  /\ fate_of mirror_insert_fails 1 = Throws
  /\ returned (run (post_employees (Some voiceowl) ann_body)
                   mirror_insert_fails after_startup)
     = json 500 (error_body "Failed to add employee due to server error.")
  /\ collection (store (run (post_employees (Some voiceowl) ann_body)
                            mirror_insert_fails after_startup))
                companyListCollectionName
     = collection after_startup companyListCollectionName.
Proof.
  split; [reflexivity |]. split; [reflexivity |].
  destruct (post_mirror_insert_throws voiceowl ann_body mirror_insert_fails
              after_startup eq_refl eq_refl eq_refl eq_refl eq_refl)
    as (Hr & _ & Hc).
  split; [exact Hr | exact Hc].
Defined.

(** ** POST /employees with a name that is not a string *)

(** Objects with an own ["toString"], alone or inside an array, cannot be
    converted; other objects, arrays, numbers and strings can. *)
Example stringifies_values :
  map stringifies
      [VObj [("toString", VNum 1%float)]; VArr [VObj [("toString", VNull)]];
       VObj [("first", VStr "Ann")]; VArr [VNull; VStr "Ann"]; VNum 7%float;
       VStr "Ann"]
  = [false; false; true; true; true; true].
Proof. reflexivity. Qed.

(** What [JSON.parse] yields is written by the driver as it is; only an
    absent property, read as [undefined], is written as [null]. *)
Lemma bson_json : forall v : value, is_json v = true -> bson v = v.
Proof.
  fix IH 1. intros [| | b | f | s | ms | n | items | fields]; simpl; try done.
  - intros H. f_equal. induction items as [| x xs IHxs]; simpl in *; [done |].
    apply andb_true_iff in H as [Hx Hxs]. f_equal; [by apply IH | by apply IHxs].
  - intros H. f_equal. induction fields as [| [k x] xs IHxs]; simpl in *; [done |].
    apply andb_true_iff in H as [Hx Hxs].
    f_equal; [f_equal; by apply IH | by apply IHxs].
Qed.

(** X15. When the body passes the validation with a [name] that cannot be
    converted to a string (a JSON object with a "toString" property, say)
    and the insert into the primary collection is acknowledged, the log
    line after that insert throws: the answer is 500 with the server-error
    message, the insert is the handler's last call, so the Employee record
    stays in the primary collection and no mirror entry is ever written
    for it. *)
Theorem post_name_not_stringifiable (d : Db) (req_body : object) (o : oracle)
    (w : world) :
  truthy (get req_body "name") = true ->
  truthy (get req_body "email") = true ->
  stringifies (get req_body "name") = false ->
  fate_of o 0 = Succeeds ->
  let r := run (post_employees (Some d) req_body) o w in
  returned r = json 500 (error_body "Failed to add employee due to server error.")
  /\ (exists id : value,
        trace r
        = [ Event newDate (inr (reading o 0));
            Event (insertOne employeesCollectionName
                             (record_of req_body (reading o 0)))
                  (inr {| acknowledged := true; insertedId := id |}) ]
        /\ collection (store r) employeesCollectionName
           = collection w employeesCollectionName
             ++ [stored_employee id (get req_body "name") (get req_body "email")
                                 (get req_body "department") (reading o 0)])
  /\ collection (store r) companyListCollectionName
     = collection w companyListCollectionName.
Proof.
  intros Hn He Hs Hf. cbv zeta. rewrite !run_added.
  unfold post_employees, template. rewrite Hn, He, Hs.
  destruct o as [fs cl]. unfold fate_of, reading in *. simpl in Hf.
  destruct fs as [| f fs]; simpl in Hf; subst;
    destruct cl as [| t cl];
    (split; [reflexivity |]); (split; [by eexists | apply app_nil_r]).
Qed.

Lemma post_name_not_stringifiable_witness :
  truthy (get odd_name_body "name") = true
  /\ stringifies (get odd_name_body "name") = false
  /\ returned (run (post_employees (Some voiceowl) odd_name_body) calm
                   after_startup)
     = json 500 (error_body "Failed to add employee due to server error.")
  /\ collection (store (run (post_employees (Some voiceowl) odd_name_body) calm
                            after_startup))
                companyListCollectionName
     = collection after_startup companyListCollectionName.
Proof.
  split; [reflexivity |]. split; [reflexivity |].
  destruct (post_name_not_stringifiable voiceowl odd_name_body calm after_startup
              eq_refl eq_refl eq_refl eq_refl) as (Hr & _ & Hc).
  split; [exact Hr | exact Hc].
Defined.

(** ** When POST /employees answers 201, and on what it depends *)

(** X4. POST /employees answers 201 exactly when the store is connected,
    [name] and [email] are both truthy, [name] can be converted to a string
    (the log line between the two inserts interpolates it), the insert into
    the primary collection is acknowledged and the mirror insert does not
    throw; the result of the mirror insert is not looked at, so an
    unacknowledged mirror insert is answered 201 as well. *)
Theorem post_employees_201_iff (db : option Db) (req_body : object) (o : oracle)
    (w : world) :
  status (returned (run (post_employees db req_body) o w)) = 201
  <-> (db <> None
       /\ truthy (get req_body "name") = true
       /\ truthy (get req_body "email") = true
       /\ stringifies (get req_body "name") = true
       /\ fate_of o 0 = Succeeds
       /\ fate_of o 1 <> Throws).
Proof.
  destruct db as [d |].
  2: { split; [discriminate | by intros [? _]]. }
  destruct (truthy (get req_body "name") && truthy (get req_body "email")) eqn:Hv.
  2: { rewrite post_employees_invalid by done. split; [discriminate |].
       intros (_ & Hn & He & _). by rewrite Hn, He in Hv. }
  apply andb_true_iff in Hv as [Hn He].
  unfold post_employees, template. rewrite Hn, He.
  destruct o as [fs cl]. unfold fate_of.
  destruct (stringifies (get req_body "name"));
    destruct fs as [| [] [| [] fs]], cl as [| t1 [| t2 cl]];
    (split; [intros H; try discriminate H; by repeat split
            | intros (_ & _ & _ & Hs & H1 & H2); try discriminate Hs;
              try discriminate H1; try (by destruct H2); reflexivity]).
Qed.

(** X5. POST /employees reads [name], [email] and [department] from the
    body and nothing else: two bodies that agree on these three properties
    are handled the same way, call for call, so a client cannot set [_id],
    [addedDate] or any other property of the stored record. *)
Theorem post_employees_reads_three_fields (db : option Db)
    (body1 body2 : object) (o : oracle) (w : world) :
  get body1 "name" = get body2 "name" ->
  get body1 "email" = get body2 "email" ->
  get body1 "department" = get body2 "department" ->
  run (post_employees db body1) o w = run (post_employees db body2) o w.
Proof.
  intros Hn He Hd. unfold post_employees. by rewrite Hn, He, Hd.
Qed.

Lemma post_employees_reads_three_fields_witness :
  get ann_body_with_more "_id" = VStr "chosen"
  /\ run (post_employees (Some voiceowl) ann_body_with_more) calm after_startup
     = run (post_employees (Some voiceowl) ann_body) calm after_startup.
Proof.
  split; [reflexivity |].
  exact (post_employees_reads_three_fields (Some voiceowl) ann_body_with_more
           ann_body calm after_startup eq_refl eq_refl eq_refl).
Defined.

(** X13. POST /employees never reads the store: its calls are clock
    readings and [insertOne]s only, and the calls it makes, with their
    arguments, and the status it answers are the same whatever the store
    already holds.  In particular there is no check for an existing record
    with the same name or email. *)
Theorem post_employees_ignores_store (db : option Db) (req_body : object)
    (o : oracle) (w1 w2 : world) :
  let r1 := run (post_employees db req_body) o w1 in
  let r2 := run (post_employees db req_body) o w2 in
  made_calls r1 = made_calls r2
  /\ status (returned r1) = status (returned r2)
  /\ remaining r1 = remaining r2
  /\ Forall (fun c => match c with
                      | newDate | insertOne _ _ => True
                      | _ => False
                      end) (made_calls r1).
Proof.
  destruct db as [d |]; [| by repeat split].
  destruct (truthy (get req_body "name") && truthy (get req_body "email")) eqn:Hv.
  2: { cbv zeta. rewrite !post_employees_invalid by done. by repeat split. }
  apply andb_true_iff in Hv as [Hn He].
  unfold made_calls, post_employees, template. rewrite Hn, He.
  destruct (stringifies (get req_body "name"));
    follow_run; repeat split; repeat constructor.
Qed.

(** ** The router *)

(** X6. While [db] is not set, no request reaches the store: every handler
    returns without making a call, the store and the oracle are untouched,
    and the answer is 503 for every endpoint except /greet, which answers
    200. *)
Theorem unconnected_requests_make_no_call (req : request) (o : oracle) (w : world) :
  let r := run (handle None req) o w in
  trace r = []
  /\ store r = w
  /\ remaining r = o
  /\ status (returned r) = match req with
                           | GET_greet _ => 200
                           | _ => 503
                           end.
Proof. by destruct req. Qed.

Lemma handle_post_valid_status (d : Db) (req_body : object) (o : oracle) (w : world) :
  truthy (get req_body "name") && truthy (get req_body "email") = true ->
  status (returned (run (post_employees (Some d) req_body) o w)) = 201
  \/ status (returned (run (post_employees (Some d) req_body) o w)) = 500.
Proof.
  intros Hv. apply andb_true_iff in Hv as [Hn He].
  unfold post_employees, template. rewrite Hn, He.
  destruct (stringifies (get req_body "name")); follow_run; auto.
Qed.

(** X7. Only POST /employees can change the store, and only when it answers
    201 or 500: a request to any other endpoint, and any request answered
    200, 400 or 503, leaves the store exactly as it was. *)
Theorem store_changes_only_on_post (db : option Db) (req : request) (o : oracle)
    (w : world) :
  let r := run (handle db req) o w in
  is_post req = false
  \/ status (returned r) = 200
  \/ status (returned r) = 400
  \/ status (returned r) = 503 ->
  store r = w.
Proof.
  destruct req as [| q | req_body | |]; simpl; intros H.
  - by destruct db.
  - done.
  - destruct db as [d |]; [| done].
    destruct (truthy (get req_body "name") && truthy (get req_body "email")) eqn:Hv.
    + destruct (handle_post_valid_status d req_body o w Hv) as [Hs | Hs];
        rewrite Hs in H; destruct H as [H | [H | [H | H]]]; discriminate.
    + by rewrite post_employees_invalid.
  - apply get_employees_run.
  - apply get_company_list_run.
Qed.

Lemma store_changes_only_on_post_witness :
  status (returned (run (handle (Some voiceowl) (POST_employees empty_name_body))
                        calm after_startup)) = 400
  /\ store (run (handle (Some voiceowl) (POST_employees empty_name_body))
                calm after_startup)
     = after_startup.
Proof.
  split; [reflexivity |].
  apply (store_changes_only_on_post (Some voiceowl) (POST_employees empty_name_body)
           calm after_startup).
  right. right. left. reflexivity.
Defined.

Lemma serve_cons (db : option Db) (req : request) (reqs : list request)
    (o : oracle) (w : world) :
  let r := run (handle db req) o w in
  let s := serve db reqs (remaining r) (store r) in
  serve db (req :: reqs) o w
  = (Exchange req (returned r) (trace r) :: s.1.1, s.1.2, s.2).
Proof. simpl. by destruct (serve db reqs _ _) as [[xs w'] o']. Qed.

Lemma handle_other_collections (db : option Db) (req : request) (o : oracle)
    (w : world) (coll : string) :
  coll <> employeesCollectionName ->
  coll <> companyListCollectionName ->
  collection (store (run (handle db req) o w)) coll = collection w coll.
Proof.
  intros H1 H2. destruct req as [| q | req_body | |]; simpl.
  - by destruct db.
  - done.
  - destruct db as [d |]; [| done].
    destruct (truthy (get req_body "name") && truthy (get req_body "email")) eqn:Hv.
    2: { by rewrite post_employees_invalid. }
    apply andb_true_iff in Hv as [Hn He].
    unfold post_employees, template. rewrite Hn, He.
    destruct (stringifies (get req_body "name"));
      follow_run; rewrite ?collection_append_other; done.
  - by destruct (get_employees_run db o w) as (_ & -> & _).
  - by destruct (get_company_list_run db o w) as (_ & -> & _).
Qed.

Lemma interleave_prefix (db : option Db) (acts : list action) (s : server)
    (coll : string) :
  collection (database s) coll
  `prefix_of` collection (database (interleave db acts s)) coll.
Proof.
  revert s. induction acts as [| a acts IH]; intros s; [done |].
  simpl. etrans; [| apply IH].
  destruct a as [req | i]; simpl; [done |].
  destruct (handlers s !! i) as [h |]; [| done].
  destruct (resume_added h (environment s) (database s) coll) as (delta & Hw & _).
  destruct (resume h (environment s) (database s)) as [[h' w'] o'].
  simpl in *. rewrite Hw. by apply prefix_app_r.
Qed.

Lemma added_elsewhere (coll : string) (t : list event) (e : event) :
  coll <> employeesCollectionName ->
  coll <> companyListCollectionName ->
  added_by coll t = [] ->
  targets (made e) = true ->
  added_by coll (t ++ [e]) = [].
Proof.
  intros H1 H2 Ht He. unfold added_by in *. rewrite flat_map_app, Ht. simpl.
  rewrite app_nil_r.
  destruct e as [[uri | c' | c' doc | c' docs | c' |] [err | res]]; simpl in *;
    try done;
    destruct (String.eqb_spec c' coll) as [-> | _]; try done;
    apply orb_true_iff in He as [He | He]; apply String.eqb_eq in He; congruence.
Qed.

Lemma writes_only_always {R : Type} (coll : string) (p : prog R) (t : list event) :
  coll <> employeesCollectionName ->
  coll <> companyListCollectionName ->
  writes_only p ->
  added_by coll t = [] ->
  always (fun _ t' => added_by coll t' = []) p t.
Proof.
  intros H1 H2. revert t. induction p as [r | c k IH]; intros t Hp Ht; [done |].
  destruct Hp as [Hc Hk]. simpl. split; [done |].
  intros a. apply IH; [apply Hk |].
  by apply added_elsewhere.
Qed.

Lemma handle_writes_only (db : option Db) (req : request) :
  writes_only (handle db req).
Proof.
  destruct req as [| q | req_body | |]; simpl.
  - by destruct db.
  - done.
  - destruct db as [d |]; [| done].
    unfold post_employees, template.
    destruct (truthy (get req_body "name")), (truthy (get req_body "email"));
      try done.
    destruct (stringifies (get req_body "name")); explore; done.
  - destruct db; [| done]. unfold get_employees. explore; done.
  - destruct db; [| done]. unfold get_company_list. explore; done.
Qed.

(** X8. The service writes to the collections [employees] and
    [company_list] and to no other: startup, any sequence of requests
    handled one after the other, and any interleaving of the calls of
    requests in flight leave every other collection of the database as it
    was. *)
Theorem other_collections_untouched (db : option Db) (uri : string)
    (reqs : list request) (acts : list action) (o : oracle) (w : world)
    (coll : string) :
  coll <> employeesCollectionName ->
  coll <> companyListCollectionName ->
  collection (store (run (connectToMongo uri) o w)) coll = collection w coll
  /\ collection (serve db reqs o w).1.2 coll = collection w coll
  /\ collection (database (interleave db acts (idle o w))) coll
     = collection w coll.
Proof.
  intros H1 H2. split; [| split].
  - destruct (connectToMongo_run uri o w) as [_ Hst].
    destruct (collection w employeesCollectionName).
    + destruct Hst as [(_ & _ & t1 & t2 & ->) | [_ [[_ ->] | [_ ->]]]];
        rewrite ?collection_append_other; done.
    + by destruct Hst as [-> _].
  - revert o w. induction reqs as [| req reqs IH]; intros o w; [done |].
    rewrite serve_cons. simpl. rewrite IH.
    by apply handle_other_collections.
  - symmetry. apply prefix_length_eq.
    + apply (interleave_prefix db acts (idle o w) coll).
    + rewrite (interleave_collection db acts o w coll).
      assert (Hn : Forall (fun h => added_by coll (events h) = [])
                          (handlers (interleave db acts (idle o w)))).
      { eapply Forall_impl.
        - apply (interleave_always db (fun _ _ t => added_by coll t = []) acts
                   (idle o w)); [| constructor].
          intros req. apply writes_only_always; try done.
          apply handle_writes_only.
        - intros h Hh. by apply always_now in Hh. }
      induction Hn as [| h hs Hh _ IH]; simpl.
      * by rewrite app_nil_r.
      * by rewrite Hh.
Qed.

Lemma other_collections_untouched_witness :
  collection (serve (Some voiceowl) a_session mirror_insert_fails
                    (append_docs after_startup "audit_log" [ann_body])).1.2
             "audit_log"
  = [ann_body]
  /\ collection
       (database (interleave (Some voiceowl) overlapping_posts
                             (idle mirror_insert_fails
                                   (append_docs after_startup "audit_log"
                                                [ann_body]))))
       "audit_log"
     = [ann_body].
Proof.
  destruct (other_collections_untouched (Some voiceowl) (mongoUri None) a_session
              overlapping_posts mirror_insert_fails
              (append_docs after_startup "audit_log" [ann_body]) "audit_log")
    as (_ & H & H'); [discriminate | discriminate |].
  rewrite H, H'. by rewrite collection_append_same.
Defined.

(** ** Restarting *)

(** X9. Seeding happens once.  After a startup that leaves the process
    running, the primary collection is not empty, so any later startup on
    the same store, whatever its calls do, leaves the store exactly as it
    is: restarting the service never duplicates the seed records. *)
Theorem restart_does_not_seed_again (uri uri' : string) (o o' : oracle)
    (w : world) (db : option Db) :
  let r := run (connectToMongo uri) o w in
  returned r = Running db ->
  collection (store r) employeesCollectionName <> []
  /\ store (run (connectToMongo uri') o' (store r)) = store r.
Proof.
  intros r Hrun.
  assert (Hne : collection (store r) employeesCollectionName <> []).
  { destruct (connectToMongo_run uri o w) as [Hret Hst]. fold r in Hret, Hst.
    destruct Hret as [[Hexit _] | [_ Hok]]; [congruence |].
    destruct (collection w employeesCollectionName) as [| doc docs] eqn:Hc.
    - destruct Hst as [(_ & _ & t1 & t2 & ->) | [Hthrew _]]; [| congruence].
      rewrite collection_append_other by done.
      by rewrite collection_append_same, Hc.
    - destruct Hst as [-> _]. by rewrite Hc. }
  split; [exact Hne |].
  destruct (connectToMongo_run uri' o' (store r)) as [_ Hst].
  destruct (collection (store r) employeesCollectionName); [done | apply Hst].
Qed.

Lemma restart_does_not_seed_again_witness :
  returned (run (connectToMongo (mongoUri None)) calm empty_store)
  = Running (Some voiceowl)
  /\ store (run (connectToMongo (mongoUri None)) calm after_startup)
     = after_startup.
Proof.
  split; [reflexivity |].
  apply (restart_does_not_seed_again (mongoUri None) (mongoUri None) calm calm
           empty_store (Some voiceowl) eq_refl).
Defined.

(** X10. A failed mirror seeding is never repaired.  When the mirror insert
    of the seeding throws, the seed Employees are in the primary
    collection; any later startup then finds the primary collection not
    empty and seeds nothing, so the secondary collection still holds only
    what it held before the first startup. *)
Theorem failed_mirror_seeding_is_not_repaired (uri uri' : string) (o o' : oracle)
    (w : world) :
  let r := run (connectToMongo uri) o w in
  let r' := run (connectToMongo uri') o' (store r) in
  existsb mirror_seed_threw (trace r) = true ->
  store r' = store r
  /\ collection (store r') employeesCollectionName
     = stored_seedEmployees (next_id w)
  /\ collection (store r') companyListCollectionName
     = collection w companyListCollectionName.
Proof.
  intros r r' Hm.
  assert (Hw : store r
               = append_docs w employeesCollectionName
                             (stored_seedEmployees (next_id w))
               /\ collection w employeesCollectionName = []).
  { destruct (connectToMongo_run uri o w) as [_ Hst]. fold r in Hst.
    destruct (collection w employeesCollectionName) as [| doc docs].
    - destruct Hst as [(_ & Hno & _) | [_ [[Hno _] | [_ Hw]]]];
        [congruence | congruence | done].
    - destruct Hst as [_ Hno]. congruence. }
  destruct Hw as [Hw Hc].
  assert (He : collection (store r) employeesCollectionName
               = stored_seedEmployees (next_id w)).
  { by rewrite Hw, collection_append_same, Hc. }
  assert (Hkeep : store r' = store r).
  { destruct (connectToMongo_run uri' o' (store r)) as [_ Hst]. fold r' in Hst.
    rewrite He in Hst. apply Hst. }
  rewrite Hkeep. split; [done |]. split; [exact He |].
  rewrite Hw. by rewrite collection_append_other.
Qed.

Lemma failed_mirror_seeding_is_not_repaired_witness :
  existsb mirror_seed_threw
          (trace (run (connectToMongo (mongoUri None)) mirror_fails empty_store))
  = true
  /\ collection
       (store (run (connectToMongo (mongoUri None)) calm
                   (store (run (connectToMongo (mongoUri None)) mirror_fails
                               empty_store))))
       companyListCollectionName
     = [].
Proof.
  split; [reflexivity |].
  destruct (failed_mirror_seeding_is_not_repaired (mongoUri None) (mongoUri None)
              mirror_fails calm empty_store eq_refl) as (_ & _ & Hc).
  exact Hc.
Defined.

(** ** The two collections together *)

Lemma names_app (l1 l2 : list object) : names (l1 ++ l2) = names l1 ++ names l2.
Proof. apply map_app. Qed.

Lemma names_Permutation (l1 l2 : list object) :
  l1 ≡ₚ l2 -> names l1 ≡ₚ names l2.
Proof. apply Permutation_map. Qed.

Lemma contribution_names (h : handler) :
  contribution h -> names (mirror_of h) ⊆+ names (primary_of h).
Proof.
  unfold contribution. destruct (rest h) as [resp | c k].
  - intros (H201 & Hother & _).
    destruct (decide (status resp = 201)) as [Hs | Hs].
    + destruct (H201 Hs) as (req_body & t1 & t2 & id & id' & _ & -> & -> & _).
      reflexivity.
    + rewrite (Hother Hs). apply submseteq_nil_l.
  - intros [-> _]. apply submseteq_nil_l.
Qed.

Lemma handlers_names (hs : list handler) :
  Forall contribution hs ->
  names (flat_map mirror_of hs) ⊆+ names (flat_map primary_of hs).
Proof.
  induction 1 as [| h hs Hh _ IH]; simpl; [done |].
  rewrite !names_app. by apply submseteq_app; [apply contribution_names |].
Qed.

(** X11. The service keeps the company list within the employees.  If
    every entry of the secondary collection has a record of its own with
    the same name in the primary collection, this still holds after a
    startup, whatever its calls do, and at every point while requests are
    handled after it, however their handlers' calls interleave and
    whichever of them fail: a mirror entry is only ever added after an
    Employee record of the same name, by the same handler. *)
Theorem mirrored_is_kept (db : option Db) (uri : string) (acts : list action)
    (o : oracle) (w : world) :
  mirrored w ->
  mirrored (store (run (connectToMongo uri) o w))
  /\ mirrored (database (interleave db acts (idle o w))).
Proof.
  unfold mirrored. intros Hw. split.
  - destruct (connectToMongo_run uri o w) as [_ Hst].
    destruct (collection w employeesCollectionName) as [| doc docs] eqn:Hc.
    + destruct Hst as [(_ & _ & t1 & t2 & ->) | [_ [[_ ->] | [_ ->]]]].
      * rewrite collection_append_same.
        rewrite (collection_append_other _ companyListCollectionName
                   employeesCollectionName) by done.
        rewrite collection_append_same.
        rewrite (collection_append_other _ employeesCollectionName
                   companyListCollectionName) by done.
        rewrite Hc, !names_app. apply submseteq_app; [done | reflexivity].
      * by rewrite Hc.
      * rewrite collection_append_same.
        rewrite collection_append_other by done.
        rewrite Hc, names_app. by apply submseteq_inserts_r.
    + destruct Hst as [-> _]. by rewrite Hc.
  - rewrite (names_Permutation _ _
               (interleave_collection db acts o w companyListCollectionName)).
    rewrite (names_Permutation _ _
               (interleave_collection db acts o w employeesCollectionName)).
    rewrite !names_app.
    apply submseteq_app; [done |].
    apply handlers_names, interleave_contribution.
Qed.

Lemma mirrored_is_kept_witness :
  mirrored empty_store
  /\ mirrored (store (run (connectToMongo (mongoUri None)) mirror_fails empty_store))
  /\ mirrored (database (interleave (Some voiceowl) overlapping_posts
                                    (idle mirror_fails empty_store))).
Proof.
  assert (H0 : mirrored empty_store) by (unfold mirrored; reflexivity).
  split; [exact H0 |].
  exact (mirrored_is_kept (Some voiceowl) (mongoUri None) overlapping_posts
           mirror_fails empty_store H0).
Defined.

(** ** Reading back what was posted *)

Lemma added_is_stored (db : option Db) (acts : list action) (o : oracle)
    (w : world) (coll : string) (h : handler) (doc : object) :
  h ∈ handlers (interleave db acts (idle o w)) ->
  doc ∈ added_by coll (events h) ->
  doc ∈ collection (database (interleave db acts (idle o w))) coll.
Proof.
  intros Hh Hdoc. rewrite (interleave_collection db acts o w coll).
  apply elem_of_app. right.
  apply list_elem_of_In, in_flat_map. exists h.
  split; by apply list_elem_of_In.
Qed.

(** X14. Once a POST /employees has been answered 201, whatever other
    requests are in flight, a GET /employees that succeeds lists the record
    of the employee object the response reported, under the same [_id] and
    as the driver wrote it (a [department] that was absent is listed as
    [null]), and a GET /company-list that succeeds lists an entry with that
    name. *)
Theorem post_then_list (d : Db) (acts : list action) (o o' : oracle) (w0 : world)
    (h : handler) (resp : response) :
  let s := interleave (Some d) acts (idle o w0) in
  h ∈ handlers s ->
  rest h = Ret resp ->
  status resp = 201 ->
  (next_fate o').1 <> Throws ->
  exists (req_body : object) (t1 t2 : Z) (id id' : value)
         (employees entries : list object),
    let name := get req_body "name" in
    let email := get req_body "email" in
    let department := get req_body "department" in
    serving h = POST_employees req_body
    /\ resp
       = json 201
           (VObj [("message",
                   VStr "Employee added successfully and synced to company list.");
                  ("employee",
                   VObj (reported_employee id name email department t1))])
    /\ returned (run (get_employees (Some d)) o' (database s))
       = json 200 (VArr (map VObj employees))
    /\ stored_employee id name email department t1 ∈ employees
    /\ returned (run (get_company_list (Some d)) o' (database s))
       = json 200 (VArr (map VObj entries))
    /\ stored_entry id' name t2 ∈ entries.
Proof.
  intros s Hh Hrest Hs Hfate.
  assert (Hc : contribution h).
  { eapply Forall_forall; [apply interleave_contribution | exact Hh]. }
  unfold contribution in Hc. rewrite Hrest in Hc. destruct Hc as (H201 & _).
  destruct (H201 Hs) as (req_body & t1 & t2 & id & id' & Hreq & Hp & Hm & Hr).
  destruct (get_employees_run (Some d) o' (database s)) as (He & _).
  destruct (get_company_list_run (Some d) o' (database s)) as (Hl & _).
  exists req_body, t1, t2, id, id',
    (collection (database s) employeesCollectionName),
    (collection (database s) companyListCollectionName).
  split; [exact Hreq |]. split; [exact Hr |].
  split; [rewrite He; unfold listing; by destruct (next_fate o').1 |].
  split; [apply (added_is_stored _ _ _ _ _ h); [done |];
          fold (primary_of h); rewrite Hp; by left |].
  split; [rewrite Hl; unfold listing; by destruct (next_fate o').1 |].
  apply (added_is_stored _ _ _ _ _ h); [done |].
  fold (mirror_of h). rewrite Hm. by left.
Qed.

Lemma post_then_list_witness :
  exists employees : list object,
    returned
      (run (get_employees (Some voiceowl)) calm
           (database (interleave (Some voiceowl) overlapping_posts
                                 (idle calm after_startup))))
    = json 200 (VArr (map VObj employees))
    /\ stored_employee (VObjectId 4) (VStr "Ann") (VStr "ann@voiceowl.com")
                       VUndefined 0 ∈ employees.
Proof.
  assert (Hfate : (next_fate calm).1 <> Throws) by discriminate.
  assert (Hh : exists h : handler,
             handlers (interleave (Some voiceowl) overlapping_posts
                                  (idle calm after_startup)) !! 0%nat = Some h
             /\ rest h = Ret (created (VObjectId 4)
                                      (newEmployee (VStr "Ann")
                                                   (VStr "ann@voiceowl.com")
                                                   VUndefined 0))).
  { eexists. split; reflexivity. }
  destruct Hh as (h & Hl & Hrest).
  destruct (post_then_list voiceowl overlapping_posts calm calm after_startup
              h _ (list_elem_of_lookup_2 _ _ _ Hl) Hrest eq_refl Hfate)
    as (b & t1 & t2 & id & id' & employees & entries & _ & Hr & He & Hin & _).
  exists employees. split; [exact He |].
  injection Hr as H1 H2 H3 H4 H5.
  by rewrite <- H1, <- H2, <- H3, <- H4, <- H5 in Hin.
Defined.

(** ** GET /greet with a repeated parameter *)

Lemma q_string_strings (l : list string) :
  q_string (QArr (map QStr l)) = String.concat "," l.
Proof.
  induction l as [| s l IH]; [done |].
  destruct l as [| s' l]; [done |].
  simpl in *. by rewrite IH.
Qed.

(** X12. When the query string repeats [name], the parsed value is an
    array, which is always truthy: the greeting joins the values with
    commas and never falls back to "World", not even when every value is
    empty. *)
Theorem greet_repeated_names (l : list string) (o : oracle) (w : world) :
  returned (run (greet (Some (QArr (map QStr l)))) o w)
  = greeting ("Hello, " +:+ String.concat "," l +:+ "!").
Proof.
  unfold greet, name_or_World, q_truthy. by rewrite q_string_strings.
Qed.
